(** * Invite link editing box: limit ladders, pickers and commit encoding

    A shallow embedding of [Ui::EditInviteLinkBox]
    (Telegram/SourceFiles/ui/boxes/edit_invite_link.cpp).

    The box keeps two integer selections, the expiration and the usage
    limit.  Each one is shown as a column of radio buttons that
    [regenerate] rebuilds from a fixed vector of presets and the current
    selection; the value [0] of either column opens a secondary box in
    which a custom value is entered.  The save button turns the two
    selections back into an [InviteLinkFields] record.

    Widgets, layout, texts and translations are left out.  What is kept
    is every integer the closures of the function read or write, and the
    order in which they do it. *)

From Stdlib Require Import ZArith List Bool Lia String Sorted.
Import ListNotations.
Local Open Scope Z_scope.

(** ** The C++ [int]

    [int] and [TimeId] are 32-bit signed integers.  They are modelled as
    [Z]; the two arithmetic operations of the source, [a + b] and
    [a - b], wrap around.  (Signed overflow is undefined in C++; the
    statements that depend on an addition or a subtraction say in which
    range the operands are taken, and there the wrap-around is the
    identity.) *)
Module Int.

Definition min : Z := - 2 ^ 31.
Definition max : Z := 2 ^ 31 - 1.

Definition in_range (z : Z) : Prop := min <= z <= max.

Definition wrap (z : Z) : Z := (z + 2 ^ 31) mod 2 ^ 32 - 2 ^ 31.

Definition add (a b : Z) : Z := wrap (a + b).
Definition sub (a b : Z) : Z := wrap (a - b).

End Int.

(** ** Constants of the anonymous namespace *)

Definition kMaxLimit : Z := Int.max.
Definition kHour : Z := 3600.
Definition kDay : Z := 86400.
Definition kMaxLabelLength : nat := 32.

(** ** Records *)

(** The record that is edited and returned.  Its declaration is in the
    header; the fields are the ones the save button initialises. *)
Module InviteLinkFields.

Record t : Type := make {
  link : string;
  label : string;
  expireDate : Z;
  usageLimit : Z;
  requestApproval : bool;
  isGroup : bool
}.

End InviteLinkFields.

(** [Buttons] in the source is a map from a limit to the radio button
    that shows it.  The model keeps the limits for which [regenerate]
    calls [addButton], in the order of the calls, that is, the elements
    of the vector the loop has built, one radio button for each.  What
    the map ([base::flat_map], which is not under src/) does with a
    limit that is added twice is not modelled. *)
Definition Buttons : Type := list Z.

(** [struct State] of [EditInviteLinkBox]. *)
Record State : Type := mkState {
  expireButtons : Buttons;
  usageButtons : Buttons;
  expireValue : Z;
  usageValue : Z;
  requestApproval : bool
}.

(** The secondary box shown on top of the dialog, if any.  The date box
    is seeded with a time, the number box with a text: [None] is the
    empty [QString()], [Some v] is [QString::number(v)].  The flag of the
    number box is set by [input->showError()]. *)
Inductive Picker : Type :=
| NoPicker
| DatePicker (time : Z)
| NumberPicker (text : option Z) (error : bool).

(** Everything the closures created by [EditInviteLinkBox] capture:
    the constants [link], [isGroup] and [now], the [State], the values
    of the two radio button groups, the text of the label field, the
    secondary box, and [guard], which is [MakeWeak(box)] and is true as
    long as the dialog exists.  [doneCalls] lists the records handed to
    [done], newest first. *)
Record Dialog : Type := mkDialog {
  link : string;
  isGroup : bool;
  now : Z;
  state : State;
  expireGroup : Z;
  usageGroup : Z;
  labelField : string;
  picker : Picker;
  guard : bool;
  doneCalls : list InviteLinkFields.t
}.

Definition set_state (d : Dialog) (s : State) : Dialog :=
  mkDialog (link d) (isGroup d) (now d) s (expireGroup d) (usageGroup d)
           (labelField d) (picker d) (guard d) (doneCalls d).

(** Modelled from the spec: [RadiobuttonGroup] (ui/widgets/checkbox.h)
    is not under src/; a group is a cell that holds the value of the
    selected radio button, and [expireGroup->setValue(v)] stores [v]
    into it. *)
Definition set_expireGroup (d : Dialog) (v : Z) : Dialog :=
  mkDialog (link d) (isGroup d) (now d) (state d) v (usageGroup d)
           (labelField d) (picker d) (guard d) (doneCalls d).

(** Modelled from the spec: [usageGroup->setValue(v)], as for the other
    group. *)
Definition set_usageGroup (d : Dialog) (v : Z) : Dialog :=
  mkDialog (link d) (isGroup d) (now d) (state d) (expireGroup d) v
           (labelField d) (picker d) (guard d) (doneCalls d).

(** Modelled from the spec: the label [InputField]
    (ui/widgets/input_fields.h) is not under src/; it holds the text it
    was created with, and a text typed later is stored cut to the
    maximum length (see [step]). *)
Definition set_labelField (d : Dialog) (t : string) : Dialog :=
  mkDialog (link d) (isGroup d) (now d) (state d) (expireGroup d)
           (usageGroup d) t (picker d) (guard d) (doneCalls d).

Definition set_picker (d : Dialog) (p : Picker) : Dialog :=
  mkDialog (link d) (isGroup d) (now d) (state d) (expireGroup d)
           (usageGroup d) (labelField d) p (guard d) (doneCalls d).

Definition set_guard (d : Dialog) (g : bool) : Dialog :=
  mkDialog (link d) (isGroup d) (now d) (state d) (expireGroup d)
           (usageGroup d) (labelField d) (picker d) g (doneCalls d).

Definition add_doneCall (d : Dialog) (r : InviteLinkFields.t) : Dialog :=
  mkDialog (link d) (isGroup d) (now d) (state d) (expireGroup d)
           (usageGroup d) (labelField d) (picker d) (guard d)
           (r :: doneCalls d).

Definition set_expireValue (s : State) (v : Z) : State :=
  mkState (expireButtons s) (usageButtons s) v (usageValue s)
          (requestApproval s).

Definition set_usageValue (s : State) (v : Z) : State :=
  mkState (expireButtons s) (usageButtons s) (expireValue s) v
          (requestApproval s).

Definition set_requestApproval (s : State) (b : bool) : State :=
  mkState (expireButtons s) (usageButtons s) (expireValue s) (usageValue s) b.

Definition set_buttons (s : State) (e u : Buttons) : State :=
  mkState e u (expireValue s) (usageValue s) (requestApproval s).

(** ** [regenerate] *)

(** The two preset vectors, as [regenerate] creates them. *)
Definition expires : list Z := [kMaxLimit; - kHour; - kDay; - kDay * 7; 0].
Definition usages : list Z := [kMaxLimit; 1; 10; 100; 0].

(** The first [for] loop, from the iterator [i] on: [tail] is what is
    left of the vector from [i] to its end.  [break] returns the tail as
    it is, [continue] and the fall-through keep [*i] and go on,
    [expires.insert(i, value)] puts the value in front of [*i]. *)
Fixpoint expires_loop (now expireValue : Z) (tail : list Z) : list Z :=
  match tail with
  | [] => []
  | i :: rest =>
      if i =? expireValue then tail
      else if i =? kMaxLimit then i :: expires_loop now expireValue rest
      else if (i =? 0) || (Int.sub now i >=? expireValue)
           then expireValue :: tail
      else i :: expires_loop now expireValue rest
  end.

(** The second [for] loop, likewise. *)
Fixpoint usages_loop (usageValue : Z) (tail : list Z) : list Z :=
  match tail with
  | [] => []
  | i :: rest =>
      if i =? usageValue then tail
      else if i =? kMaxLimit then i :: usages_loop usageValue rest
      else if (i =? 0) || (i >? usageValue)
           then usageValue :: tail
      else i :: usages_loop usageValue rest
  end.

(** The vectors once the loops have run. *)
Definition regenerate_expires (now expireValue : Z) : list Z :=
  expires_loop now expireValue expires.

Definition regenerate_usages (usageValue : Z) : list Z :=
  usages_loop usageValue usages.

(** [regenerate]: both groups are set to the stored values, both columns
    are cleared and rebuilt, one button for each element of the vectors.
    [now] is the time read when the dialog was created. *)
Definition regenerate (d : Dialog) : Dialog :=
  let s := state d in
  let d1 := set_expireGroup d (expireValue s) in
  let d2 := set_usageGroup d1 (usageValue s) in
  set_state d2
    (set_buttons s
       (regenerate_expires (now d) (expireValue s))
       (regenerate_usages (usageValue s))).

(** ** The callbacks *)

(** The time the date box starts with; [now] is read when the box is
    opened. *)
Definition chooseTime (now expireValue : Z) : Z :=
  if expireValue =? kMaxLimit then Int.add now kDay
  else if expireValue >? now then expireValue
  else if expireValue <? 0 then Int.sub now expireValue
  else Int.add now kDay.

(** The text the number box starts with. *)
Definition chooseText (usageValue : Z) : option Z :=
  if usageValue =? kMaxLimit then None else Some usageValue.

(** The changed callback of [expireGroup], for the value of the radio
    button that was chosen. *)
Definition expireChanged (clock value : Z) (d : Dialog) : Dialog :=
  if negb (value =? 0) then
    set_state d (set_expireValue (state d) value)
  else
    let d1 := set_expireGroup d (expireValue (state d)) in
    set_picker d1 (DatePicker (chooseTime clock (expireValue (state d1)))).

(** The changed callback of [usageGroup]. *)
Definition usageChanged (value : Z) (d : Dialog) : Dialog :=
  if negb (value =? 0) then
    set_state d (set_usageValue (state d) value)
  else
    let d1 := set_usageGroup d (usageValue (state d)) in
    set_picker d1 (NumberPicker (chooseText (usageValue (state d1))) false).

(** [save] of the date box. *)
Definition expireSave (result : Z) (d : Dialog) : Dialog :=
  if result =? 0 then d
  else
    let d1 :=
      if guard d
      then regenerate (set_state d (set_expireValue (state d) result))
      else d in
    set_picker d1 NoPicker.

(** [save] of the number box; [value] is what
    [input->getLastText().toInt()] returned, [0] for a text that is not
    a number. *)
Definition usageSave (value : Z) (d : Dialog) : Dialog :=
  if value <=? 0 then
    match picker d with
    | NumberPicker text _ => set_picker d (NumberPicker text true)
    | _ => d
    end
  else
    let d1 :=
      if guard d
      then regenerate (set_state d (set_usageValue (state d) value))
      else d in
    set_picker d1 NoPicker.

(** The record the save button hands to [done]; [clock] is
    [base::unixtime::now()] read by the button. *)
Definition saveRecord (clock : Z) (d : Dialog) : InviteLinkFields.t :=
  let s := state d in
  let expireDate :=
    if expireValue s =? kMaxLimit then 0
    else if expireValue s <? 0 then Int.sub clock (expireValue s)
    else expireValue s in
  let usageLimit :=
    if usageValue s =? kMaxLimit then 0 else usageValue s in
  InviteLinkFields.make (link d) (labelField d) expireDate usageLimit
                        (requestApproval s) (isGroup d).

(** [usagesSlide->toggleOn(requestApproval | map(!_1))]: the usage
    section is shown exactly when approval is not requested. *)
Definition usagesShown (d : Dialog) : bool :=
  negb (requestApproval (state d)).

(** ** The dialog as a transition system *)

(** The body of [EditInviteLinkBox], run at the time [now]. *)
Definition EditInviteLinkBox (data : InviteLinkFields.t) (now : Z) : Dialog :=
  let expire :=
    if InviteLinkFields.expireDate data =? 0 then kMaxLimit
    else InviteLinkFields.expireDate data in
  let usage :=
    if InviteLinkFields.usageLimit data =? 0 then kMaxLimit
    else InviteLinkFields.usageLimit data in
  regenerate
    (mkDialog (InviteLinkFields.link data) (InviteLinkFields.isGroup data) now
              (mkState [] [] expire usage
                       (InviteLinkFields.requestApproval data))
              expire usage (InviteLinkFields.label data) NoPicker true []).

(** What can happen to an open dialog.  An event that reads the clock
    carries the time it reads. *)
Inductive Event : Type :=
| ExpireChosen (value clock : Z)   (* a radio button of the first column *)
| UsageChosen (value : Z)          (* a radio button of the second column *)
| DateSubmitted (result : Z)       (* the date box calls [done] *)
| DateCancelled                    (* the date box is dismissed *)
| NumberSubmitted (value : Z)      (* submit or save in the number box *)
| NumberCancelled                  (* cancel in the number box *)
| ApprovalToggled (on : bool)      (* the request approval button *)
| LabelTyped (text : string)       (* the label field *)
| SaveClicked (clock : Z)          (* the save button of the dialog *)
| CancelClicked.                   (* the cancel button of the dialog *)

(** Modelled from the spec: [ChooseDateTimeBox]
    (ui/boxes/choose_date_time.h) is not under src/; when it is
    dismissed it goes away without calling [done]. *)
Definition dateCancel (d : Dialog) : Dialog :=
  match picker d with
  | DatePicker _ => set_picker d NoPicker
  | _ => d
  end.

(** The cancel button of the number box: [box->closeBox()]. *)
Definition numberCancel (d : Dialog) : Dialog :=
  match picker d with
  | NumberPicker _ _ => set_picker d NoPicker
  | _ => d
  end.

(** One event.  The widgets of the dialog react only while the dialog
    exists; the callbacks of a secondary box run only while that box is
    shown, and they check [guard] themselves. *)
Definition step (d : Dialog) (e : Event) : Dialog :=
  match e with
  | ExpireChosen value clock =>
      if guard d then expireChanged clock value (set_expireGroup d value)
      else d
  | UsageChosen value =>
      if guard d then usageChanged value (set_usageGroup d value) else d
  | DateSubmitted result =>
      match picker d with
      | DatePicker _ => expireSave result d
      | _ => d
      end
  | DateCancelled => dateCancel d
  | NumberSubmitted value =>
      match picker d with
      | NumberPicker _ _ => usageSave value d
      | _ => d
      end
  | NumberCancelled => numberCancel d
  | ApprovalToggled on =>
      if guard d then set_state d (set_requestApproval (state d) on) else d
  | LabelTyped text =>
      if guard d
      then set_labelField d (String.substring 0 kMaxLabelLength text)
      else d
  | SaveClicked clock =>
      if guard d then add_doneCall d (saveRecord clock d) else d
  | CancelClicked => set_guard d false
  end.

Definition run (d : Dialog) (events : list Event) : Dialog :=
  fold_left step events d.

(** A dialog that some sequence of events leads to. *)
Definition reachable (d : Dialog) : Prop :=
  exists data now events, d = run (EditInviteLinkBox data now) events.

(** Containment, in the words of the specification: the synthesized
    sequence has the current value exactly once and every preset exactly
    once, and it is as long as the presets when the current value is a
    preset and one longer otherwise. *)
Definition containment (presets : list Z) (current : Z) (synthesized : list Z)
  : Prop :=
  count_occ Z.eq_dec synthesized current = 1%nat /\
  (forall p, In p presets -> count_occ Z.eq_dec synthesized p = 1%nat) /\
  (In current presets -> List.length synthesized = List.length presets) /\
  (~ In current presets ->
   List.length synthesized = S (List.length presets)).

(** The stored selections are not [0], and each group shows the stored
    selection. *)
Definition consistent (d : Dialog) : Prop :=
  expireValue (state d) <> 0 /\
  usageValue (state d) <> 0 /\
  expireGroup d = expireValue (state d) /\
  usageGroup d = usageValue (state d).

(** Records for the examples: a link without limits, and a link whose
    expiration time [500] has passed when the examples run. *)
Definition plain_link : InviteLinkFields.t :=
  InviteLinkFields.make EmptyString EmptyString 0 0 false true.

Definition expired_link : InviteLinkFields.t :=
  InviteLinkFields.make EmptyString EmptyString 500 0 false true.

(** ** Texts of the radio buttons *)

(** [-date] of the source. *)
Definition int_neg (a : Z) : Z := Int.wrap (- a).

(** What [FormatExpireDate] returns.  The phrases themselves come from
    the language pack; kept are the phrase that is chosen and the number
    or the date that is put into it. *)
Inductive ExpireText : Type :=
| DateTimeText (date : Z)   (* langDateTime(base::unixtime::parse(date)) *)
| HoursText (count : Z)     (* lng_group_call_duration_hours *)
| DaysText (count : Z)      (* lng_group_call_duration_days *)
| WeeksText (count : Z).    (* lng_local_storage_limit_weeks *)

(** [FormatExpireDate]; the division of [int] rounds towards zero. *)
Definition FormatExpireDate (date : Z) : ExpireText :=
  if date >? 0 then DateTimeText date
  else if int_neg date <? kDay then
    HoursText (Z.quot (int_neg date) kHour)
  else if int_neg date <? 7 * kDay then
    DaysText (Z.quot (int_neg date) kDay)
  else
    WeeksText (Z.quot (int_neg date) (7 * kDay)).

(** The text of a radio button, as the last two loops of [regenerate]
    choose it. *)
Inductive ButtonText : Type :=
| NeverText                      (* lng_group_invite_expire_never *)
| CustomExpireText               (* lng_group_invite_expire_custom *)
| ExpireDateText (text : ExpireText)
| AnyText                        (* lng_group_invite_usage_any *)
| CustomUsageText                (* lng_group_invite_usage_custom *)
| NumberText (limit : Z).        (* QString("%L1").arg(limit) *)

Definition expireButtonText (limit : Z) : ButtonText :=
  if limit =? kMaxLimit then NeverText
  else if limit =? 0 then CustomExpireText
  else ExpireDateText (FormatExpireDate limit).

Definition usageButtonText (limit : Z) : ButtonText :=
  if limit =? kMaxLimit then AnyText
  else if limit =? 0 then CustomUsageText
  else NumberText limit.

(** ** Notions used in the statements *)

(** The common form of the two loops of [regenerate]; [fires] is the
    last test of the loop.  Both loops are instances of it (see
    [expires_loop_common] and [usages_loop_common]). *)
Fixpoint insert_loop (fires : Z -> bool) (value : Z) (tail : list Z)
  : list Z :=
  match tail with
  | [] => []
  | i :: rest =>
      if i =? value then tail
      else if i =? kMaxLimit then i :: insert_loop fires value rest
      else if (i =? 0) || fires i then value :: tail
      else i :: insert_loop fires value rest
  end.

(** A column that begins with [kMaxLimit], ends with [0], has neither
    of the two in between, has at most four entries in between and has
    every preset. *)
Definition column_shape (presets column : list Z) : Prop :=
  exists middle,
    column = kMaxLimit :: middle ++ [0] /\
    Forall (fun limit => limit <> kMaxLimit /\ limit <> 0) middle /\
    (List.length middle <= 4)%nat /\
    (forall p, In p presets -> In p column).

(** Both columns are what [regenerate] builds, with the time the dialog
    was created at, for some selections that are not [0]. *)
Definition columns_regenerated (d : Dialog) : Prop :=
  exists expireValue usageValue,
    expireValue <> 0 /\ usageValue <> 0 /\
    expireButtons (state d) = regenerate_expires (now d) expireValue /\
    usageButtons (state d) = regenerate_usages usageValue.

(** The time an expiration value stands for at the time [now]: a
    negative value is a duration from [now] on, as in the save button
    and in the seed of the date box. *)
Definition absoluteTime (now value : Z) : Z :=
  if value <? 0 then now - value else value.

(** An event the user can cause: a radio button that is chosen is one
    of the buttons of its column. *)
Definition offered (d : Dialog) (e : Event) : Prop :=
  match e with
  | ExpireChosen value _ => In value (expireButtons (state d))
  | UsageChosen value => In value (usageButtons (state d))
  | _ => True
  end.

Fixpoint offered_run (d : Dialog) (events : list Event) : Prop :=
  match events with
  | [] => True
  | e :: rest => offered d e /\ offered_run (step d e) rest
  end.

(** * Properties *)

(** ** Arithmetic of [int] *)

Lemma kMaxLimit_value : kMaxLimit = 2147483647.
Proof. reflexivity. Qed.

Lemma wrap_in_range (z : Z) : Int.in_range z -> Int.wrap z = z.
Proof.
  unfold Int.in_range, Int.wrap, Int.min, Int.max. intros Hz.
  rewrite Z.mod_small; lia.
Qed.

Lemma sub_exact (a b : Z) : Int.in_range (a - b) -> Int.sub a b = a - b.
Proof. apply wrap_in_range. Qed.

Lemma add_exact (a b : Z) : Int.in_range (a + b) -> Int.add a b = a + b.
Proof. apply wrap_in_range. Qed.

(** Unfolds the constants, so that [lia] sees numbers. *)
Ltac int_consts :=
  unfold Int.in_range, kMaxLimit, kHour, kDay, Int.max, Int.min in *;
  change (2 ^ 31) with 2147483648 in *.

(** Decides the next test of a loop or of a conditional. *)
Ltac decide_test :=
  match goal with
  | |- context [?a =? ?b] => destruct (Z.eqb_spec a b); try lia
  | |- context [?a >? ?b] =>
      rewrite (Z.gtb_ltb a b); destruct (Z.ltb_spec b a); try lia
  | |- context [?a >=? ?b] =>
      rewrite (Z.geb_leb a b); destruct (Z.leb_spec b a); try lia
  | |- context [?a <? ?b] => destruct (Z.ltb_spec a b); try lia
  | |- context [?a <=? ?b] => destruct (Z.leb_spec a b); try lia
  end; cbn [orb andb negb].

(** ** The loops of [regenerate] *)

(** Where the second loop puts a value that is not in the vector: in
    front of the first element [p], other than [kMaxLimit], that is [0]
    or greater than the value.  The vector has to contain the [0]. *)
Lemma usages_loop_inserts (usageValue : Z) (tail : list Z) :
  ~ In usageValue tail -> In 0 tail ->
  exists l1 p l2,
    tail = l1 ++ p :: l2 /\
    usages_loop usageValue tail = l1 ++ usageValue :: p :: l2 /\
    (p = 0 \/ (p <> kMaxLimit /\ usageValue < p)) /\
    Forall (fun q => q = kMaxLimit \/ (q <> 0 /\ q <= usageValue)) l1.
Proof.
  induction tail as [|i rest IH]; intros Hnot Hzero; [destruct Hzero|].
  assert (Hne : i <> usageValue) by (intros ->; apply Hnot; now left).
  assert (Hrest : ~ In usageValue rest) by (intros H; apply Hnot; now right).
  cbn [usages_loop].
  destruct (Z.eqb_spec i usageValue) as [|_]; [contradiction|].
  destruct (Z.eqb_spec i kMaxLimit) as [Hmax|Hmax].
  - destruct Hzero as [H0|H0]; [subst i; discriminate Hmax|].
    destruct (IH Hrest H0) as (l1 & p & l2 & E1 & E2 & Hp & Hall).
    exists (i :: l1), p, l2. cbn [app]. rewrite E1 at 1. rewrite E2.
    repeat split; auto.
  - destruct (Z.eqb_spec i 0) as [Hi0|Hi0]; cbn [orb].
    + exists [], i, rest. cbn [app]. repeat split; auto.
    + rewrite Z.gtb_ltb. destruct (Z.ltb_spec usageValue i) as [Hlt|Hge].
      * exists [], i, rest. cbn [app]. repeat split; auto.
      * destruct Hzero as [H0|H0]; [contradiction|].
        destruct (IH Hrest H0) as (l1 & p & l2 & E1 & E2 & Hp & Hall).
        exists (i :: l1), p, l2. cbn [app]. rewrite E1 at 1. rewrite E2.
        repeat split; auto.
Qed.

(** The first loop, likewise: the value goes in front of the first
    element [p], other than [kMaxLimit], that is [0] or has
    [now - p >= value]. *)
Lemma expires_loop_inserts (now expireValue : Z) (tail : list Z) :
  ~ In expireValue tail -> In 0 tail ->
  exists l1 p l2,
    tail = l1 ++ p :: l2 /\
    expires_loop now expireValue tail = l1 ++ expireValue :: p :: l2 /\
    (p = 0 \/ (p <> kMaxLimit /\ expireValue <= Int.sub now p)) /\
    Forall (fun q => q = kMaxLimit \/ (q <> 0 /\ Int.sub now q < expireValue))
           l1.
Proof.
  induction tail as [|i rest IH]; intros Hnot Hzero; [destruct Hzero|].
  assert (Hne : i <> expireValue) by (intros ->; apply Hnot; now left).
  assert (Hrest : ~ In expireValue rest) by (intros H; apply Hnot; now right).
  cbn [expires_loop].
  destruct (Z.eqb_spec i expireValue) as [|_]; [contradiction|].
  destruct (Z.eqb_spec i kMaxLimit) as [Hmax|Hmax].
  - destruct Hzero as [H0|H0]; [subst i; discriminate Hmax|].
    destruct (IH Hrest H0) as (l1 & p & l2 & E1 & E2 & Hp & Hall).
    exists (i :: l1), p, l2. cbn [app]. rewrite E1 at 1. rewrite E2.
    repeat split; auto.
  - destruct (Z.eqb_spec i 0) as [Hi0|Hi0]; cbn [orb].
    + exists [], i, rest. cbn [app]. repeat split; auto.
    + rewrite Z.geb_leb.
      destruct (Z.leb_spec expireValue (Int.sub now i)) as [Hle|Hgt].
      * exists [], i, rest. cbn [app]. repeat split; auto.
      * destruct Hzero as [H0|H0]; [contradiction|].
        destruct (IH Hrest H0) as (l1 & p & l2 & E1 & E2 & Hp & Hall).
        exists (i :: l1), p, l2. cbn [app]. rewrite E1 at 1. rewrite E2.
        repeat split; auto.
Qed.

(** Counting in a vector into which one new value was put. *)
Lemma count_occ_inserted (l1 l2 : list Z) (v x : Z) :
  count_occ Z.eq_dec (l1 ++ v :: l2) x =
  (count_occ Z.eq_dec (l1 ++ l2) x + if Z.eq_dec v x then 1 else 0)%nat.
Proof.
  rewrite !count_occ_app. cbn [count_occ].
  destruct (Z.eq_dec v x); lia.
Qed.

Lemma NoDup_count_occ_1 (l : list Z) (x : Z) :
  NoDup l -> In x l -> count_occ Z.eq_dec l x = 1%nat.
Proof.
  intros Hnd Hin. apply (proj1 (NoDup_count_occ' Z.eq_dec l) Hnd x Hin).
Qed.

(** What an inserting loop guarantees for a vector without repetitions
    and a value that is not in it. *)
Lemma inserted_once (presets l1 l2 : list Z) (v : Z) :
  NoDup presets -> ~ In v presets -> presets = l1 ++ l2 ->
  containment presets v (l1 ++ v :: l2).
Proof.
  intros Hnd Hnot E. unfold containment.
  refine (conj _ (conj _ (conj _ _))).
  - rewrite count_occ_inserted, <- E.
    rewrite (proj1 (count_occ_not_In Z.eq_dec _ _) Hnot).
    destruct (Z.eq_dec v v); [reflexivity|contradiction].
  - intros p Hp.
    rewrite count_occ_inserted, <- E, (NoDup_count_occ_1 _ _ Hnd Hp).
    destruct (Z.eq_dec v p) as [->|]; [contradiction|reflexivity].
  - intros Hin. contradiction.
  - intros _. rewrite E, !length_app. cbn [List.length]. lia.
Qed.

(** And what a loop that stops at the value guarantees. *)
Lemma unchanged_once (presets : list Z) (v : Z) :
  NoDup presets -> In v presets -> containment presets v presets.
Proof.
  intros Hnd Hin. unfold containment.
  refine (conj _ (conj _ (conj _ _))).
  - exact (NoDup_count_occ_1 _ _ Hnd Hin).
  - intros p Hp. exact (NoDup_count_occ_1 _ _ Hnd Hp).
  - reflexivity.
  - intros Hnot. contradiction.
Qed.

Lemma usages_NoDup : NoDup usages.
Proof.
  unfold usages. repeat constructor; cbn [In]; int_consts; lia.
Qed.

Lemma expires_NoDup : NoDup expires.
Proof.
  unfold expires. repeat constructor; cbn [In]; int_consts; lia.
Qed.

(** ** The usage column *)

Lemma usages_zero_is_last (l1 l2 : list Z) :
  usages = l1 ++ 0 :: l2 -> l2 = [].
Proof.
  unfold usages. intros E.
  do 5 (destruct l1 as [|? l1]; cbn [app] in E;
        [injection E; intros; subst; try reflexivity; int_consts; lia
        |injection E as _ E]).
  destruct l1; discriminate E.
Qed.

(** The usage column always has the selection once and every preset
    once, whatever the selection is, [0] apart (which is never stored). *)
Lemma usages_containment (usageValue : Z) :
  usageValue <> 0 ->
  containment usages usageValue (regenerate_usages usageValue).
Proof.
  intros Hnz. destruct (in_dec Z.eq_dec usageValue usages) as [Hin|Hnot].
  - assert (E : regenerate_usages usageValue = usages).
    { unfold usages in Hin. cbn [In] in Hin.
      destruct Hin as [<-|[<-|[<-|[<-|[H|[]]]]]];
        [reflexivity .. | congruence]. }
    rewrite E. exact (unchanged_once usages usageValue usages_NoDup Hin).
  - assert (H0 : In 0 usages) by (unfold usages; cbn [In]; tauto).
    destruct (usages_loop_inserts usageValue usages Hnot H0)
      as (l1 & p & l2 & E1 & E2 & _ & _).
    unfold regenerate_usages. rewrite E2.
    exact (inserted_once usages l1 (p :: l2) usageValue usages_NoDup Hnot E1).
Qed.

(** ** The expiration column *)

(** With a clock that is not negative, a negative selection other than
    the first preset is put in front of the first preset: [now + kHour]
    is not below it. *)
Lemma expires_negative_first (now expireValue : Z) :
  0 <= now <= kMaxLimit - kHour ->
  expireValue < 0 -> expireValue <> - kHour ->
  regenerate_expires now expireValue =
  kMaxLimit :: expireValue :: [- kHour; - kDay; - kDay * 7; 0].
Proof.
  intros Hnow Hneg Hne.
  unfold regenerate_expires, expires. cbn [expires_loop].
  rewrite (sub_exact now (- kHour)) by (int_consts; lia).
  int_consts. repeat decide_test; reflexivity.
Qed.

(** The expiration column has the selection once and every preset once
    when the selection is not one of the two later presets (nor [0]). *)
Lemma expires_containment (now expireValue : Z) :
  expireValue <> 0 -> expireValue <> - kDay -> expireValue <> - kDay * 7 ->
  containment expires expireValue (regenerate_expires now expireValue).
Proof.
  intros Hnz Hday Hweek.
  destruct (in_dec Z.eq_dec expireValue expires) as [Hin|Hnot].
  - assert (E : regenerate_expires now expireValue = expires).
    { unfold expires in Hin. cbn [In] in Hin.
      destruct Hin as [<-|[<-|[H|[H|[H|[]]]]]];
        [reflexivity | reflexivity | congruence ..]. }
    rewrite E. exact (unchanged_once expires expireValue expires_NoDup Hin).
  - assert (H0 : In 0 expires) by (unfold expires; cbn [In]; tauto).
    destruct (expires_loop_inserts now expireValue expires Hnot H0)
      as (l1 & p & l2 & E1 & E2 & _ & _).
    unfold regenerate_expires. rewrite E2.
    exact (inserted_once expires l1 (p :: l2) expireValue
             expires_NoDup Hnot E1).
Qed.

(** ** Claims on the two columns *)

(** The list claim C1 gives for [-7200] is not the one the loop builds
    when the dialog is created at the time [1000]: [1000 + 3600] is not
    below [-7200], so the value is put in front of the one hour preset. *)
Lemma expires_two_hours_relative_not_between :
  regenerate_expires 1000 (-7200) <>
  [kMaxLimit; - kHour; -7200; - kDay; - kDay * 7; 0].
Proof.
  rewrite (expires_negative_first 1000 (-7200)) by (int_consts; lia).
  intros H. injection H as H _. int_consts. lia.
Qed.

(** C1, amended.  For a dialog created at the time [now], with
    [0 <= now < kMaxLimit - kDay], a selection that is an absolute time
    [T] later than one hour and not later than one day after [now] (two
    hours after [now], say) gives exactly
    [[kMaxLimit; -3600; T; -86400; -604800; 0]]: the custom value stands
    strictly between the one hour and the one day presets, by the test
    [now - p >= T] of the loop. *)
Theorem expires_absolute_between_hour_and_day (now T : Z) :
  0 <= now < kMaxLimit - kDay ->
  now + kHour < T <= now + kDay ->
  regenerate_expires now T = [kMaxLimit; - kHour; T; - kDay; - kDay * 7; 0].
Proof.
  intros Hnow HT.
  unfold regenerate_expires, expires. cbn [expires_loop].
  rewrite (sub_exact now (- kHour)) by (int_consts; lia).
  rewrite (sub_exact now (- kDay)) by (int_consts; lia).
  int_consts. repeat decide_test; reflexivity.
Qed.

Lemma expires_absolute_between_hour_and_day_witness :
  regenerate_expires 1000 8200 =
  [kMaxLimit; - kHour; 8200; - kDay; - kDay * 7; 0].
Proof.
  apply (expires_absolute_between_hour_and_day 1000 8200); int_consts; lia.
Defined.

(** C2 fails on the expiration column.  For a dialog created at a time
    [now] with [0 <= now <= kMaxLimit - kHour], when the selection is
    the one day preset the loop does not reach the equal element: the
    test [now - *i >= expireValue] holds already at the one hour preset
    and the selection is inserted there.  The vector then has the
    selection twice and is one longer than the presets, although the
    selection is a preset, so containment does not hold.  The dialog
    gets there when the one day button is chosen and a custom usage
    limit is saved afterwards. *)
Theorem expires_day_preset_twice (now : Z) :
  0 <= now <= kMaxLimit - kHour ->
  In (- kDay) expires /\
  regenerate_expires now (- kDay) =
    [kMaxLimit; - kDay; - kHour; - kDay; - kDay * 7; 0] /\
  count_occ Z.eq_dec (regenerate_expires now (- kDay)) (- kDay) = 2%nat /\
  List.length (regenerate_expires now (- kDay)) = S (List.length expires) /\
  ~ containment expires (- kDay) (regenerate_expires now (- kDay)) /\
  forall data clock,
    expireButtons
      (state (run (EditInviteLinkBox data now)
                  [ExpireChosen (- kDay) clock; UsageChosen 0;
                   NumberSubmitted 5])) =
    [kMaxLimit; - kDay; - kHour; - kDay; - kDay * 7; 0].
Proof.
  intros Hnow.
  assert (E : regenerate_expires now (- kDay) =
              [kMaxLimit; - kDay; - kHour; - kDay; - kDay * 7; 0]).
  { apply expires_negative_first; int_consts; lia. }
  split; [unfold expires; cbn [In]; tauto|].
  split; [exact E|]. rewrite E.
  split; [reflexivity|]. split; [reflexivity|].
  split; [intros (Hcount & _); discriminate Hcount|].
  intros data clock. rewrite <- E. reflexivity.
Qed.

Lemma expires_day_preset_twice_witness :
  count_occ Z.eq_dec (regenerate_expires 1000 (- kDay)) (- kDay) = 2%nat.
Proof.
  apply (expires_day_preset_twice 1000). int_consts. lia.
Defined.

(** C3.  With the presets [[kMaxLimit; 1; 10; 100; 0]], the selection
    [50] gives [[kMaxLimit; 1; 10; 50; 100; 0]] and the selection [200]
    gives [[kMaxLimit; 1; 10; 100; 200; 0]].  In general a selection
    that is not a preset is put in front of a preset [p] that is either
    the [0] at the end or greater than the selection, and no preset
    before [p], [kMaxLimit] apart, is [0] or greater than the
    selection. *)
Theorem usages_custom_position :
  regenerate_usages 50 = [kMaxLimit; 1; 10; 50; 100; 0] /\
  regenerate_usages 200 = [kMaxLimit; 1; 10; 100; 200; 0] /\
  forall usageValue, ~ In usageValue usages ->
    exists l1 p l2,
      usages = l1 ++ p :: l2 /\
      regenerate_usages usageValue = l1 ++ usageValue :: p :: l2 /\
      ((p = 0 /\ l2 = []) \/ (p <> kMaxLimit /\ usageValue < p)) /\
      Forall (fun q => q = kMaxLimit \/ (q <> 0 /\ q <= usageValue)) l1.
Proof.
  split; [reflexivity|]. split; [reflexivity|].
  intros usageValue Hnot.
  assert (H0 : In 0 usages) by (unfold usages; cbn [In]; tauto).
  destruct (usages_loop_inserts usageValue usages Hnot H0)
    as (l1 & p & l2 & E1 & E2 & Hp & Hall).
  exists l1, p, l2. repeat split; auto.
  destruct Hp as [->|Hp]; [left|right; exact Hp].
  split; [reflexivity|]. exact (usages_zero_is_last l1 l2 E1).
Qed.

Lemma usages_custom_position_witness :
  exists l1 p l2,
    usages = l1 ++ p :: l2 /\
    regenerate_usages 50 = l1 ++ 50 :: p :: l2 /\
    ((p = 0 /\ l2 = []) \/ (p <> kMaxLimit /\ 50 < p)) /\
    Forall (fun q => q = kMaxLimit \/ (q <> 0 /\ q <= 50)) l1.
Proof.
  apply (proj2 (proj2 usages_custom_position) 50).
  unfold usages. cbn [In]. int_consts. lia.
Defined.

(** ** The dialog *)

(** What [regenerate] leaves alone and what it sets. *)
Lemma regenerate_values (d : Dialog) :
  expireValue (state (regenerate d)) = expireValue (state d) /\
  usageValue (state (regenerate d)) = usageValue (state d) /\
  requestApproval (state (regenerate d)) = requestApproval (state d) /\
  expireGroup (regenerate d) = expireValue (state d) /\
  usageGroup (regenerate d) = usageValue (state d) /\
  picker (regenerate d) = picker d /\
  guard (regenerate d) = guard d.
Proof. repeat split. Qed.

Lemma regenerate_buttons (d : Dialog) :
  expireButtons (state (regenerate d)) =
    regenerate_expires (now d) (expireValue (state d)) /\
  usageButtons (state (regenerate d)) =
    regenerate_usages (usageValue (state d)).
Proof. split; reflexivity. Qed.

Lemma EditInviteLinkBox_consistent (data : InviteLinkFields.t) (now : Z) :
  consistent (EditInviteLinkBox data now).
Proof.
  unfold consistent, EditInviteLinkBox.
  cbn [regenerate state set_state set_buttons set_usageGroup set_expireGroup
       expireValue usageValue expireGroup usageGroup].
  repeat split;
    try (destruct (Z.eqb_spec (InviteLinkFields.expireDate data) 0);
         [discriminate|assumption]);
    try (destruct (Z.eqb_spec (InviteLinkFields.usageLimit data) 0);
         [discriminate|assumption]).
Qed.

Lemma step_consistent (d : Dialog) (e : Event) :
  consistent d -> consistent (step d e).
Proof.
  unfold consistent. intros (He & Hu & Hge & Hgu).
  assert (Hd : expireValue (state d) <> 0 /\ usageValue (state d) <> 0 /\
               expireGroup d = expireValue (state d) /\
               usageGroup d = usageValue (state d)) by auto.
  destruct e as [value clock|value|result| |value| |on|text|clock| ];
    cbn [step].
  - destruct (guard d); [|exact Hd]. unfold expireChanged.
    destruct (Z.eqb_spec value 0) as [->|Hv]; cbn; auto.
  - destruct (guard d); [|exact Hd]. unfold usageChanged.
    destruct (Z.eqb_spec value 0) as [->|Hv]; cbn; auto.
  - destruct (picker d); try exact Hd. unfold expireSave.
    destruct (Z.eqb_spec result 0) as [->|Hr]; [exact Hd|].
    destruct (guard d); cbn; auto.
  - unfold dateCancel. destruct (picker d); exact Hd.
  - unfold usageSave. destruct (picker d) as [| |text err]; try exact Hd.
    destruct (Z.leb_spec value 0) as [Hle|Hgt]; [exact Hd|].
    destruct (guard d); cbn; repeat split; auto; lia.
  - unfold numberCancel. destruct (picker d); exact Hd.
  - destruct (guard d); exact Hd.
  - destruct (guard d); exact Hd.
  - destruct (guard d); exact Hd.
  - exact Hd.
Qed.

Lemma run_consistent (events : list Event) (d : Dialog) :
  consistent d -> consistent (run d events).
Proof.
  revert d. induction events as [|e events IH]; intros d Hd; [exact Hd|].
  cbn [run fold_left]. apply IH, step_consistent, Hd.
Qed.

Lemma reachable_consistent (d : Dialog) : reachable d -> consistent d.
Proof.
  intros (data & now & events & ->).
  apply run_consistent, EditInviteLinkBox_consistent.
Qed.

(** ** Claims on the dialog *)

(** C4.  The save button encodes the expiration selection as [0] when
    it is [kMaxLimit], as [clock - v] when it is a negative [v] (with
    the clock read by the button: [-3600] saved at the time [1000] gives
    [4600], whenever the dialog was created and the button chosen), and
    as itself otherwise; it encodes the usage selection as [0] when it
    is [kMaxLimit] and as itself otherwise. *)
Theorem save_encoding (d : Dialog) (clock : Z) :
  (expireValue (state d) = kMaxLimit ->
   InviteLinkFields.expireDate (saveRecord clock d) = 0) /\
  (expireValue (state d) < 0 ->
   Int.in_range (clock - expireValue (state d)) ->
   InviteLinkFields.expireDate (saveRecord clock d) =
   clock - expireValue (state d)) /\
  (0 <= expireValue (state d) -> expireValue (state d) <> kMaxLimit ->
   InviteLinkFields.expireDate (saveRecord clock d) = expireValue (state d)) /\
  (usageValue (state d) = kMaxLimit ->
   InviteLinkFields.usageLimit (saveRecord clock d) = 0) /\
  (usageValue (state d) <> kMaxLimit ->
   InviteLinkFields.usageLimit (saveRecord clock d) = usageValue (state d)) /\
  (forall data created chosen,
     InviteLinkFields.expireDate
       (saveRecord 1000 (step (EditInviteLinkBox data created)
                              (ExpireChosen (-3600) chosen))) = 4600).
Proof.
  unfold saveRecord.
  cbn [InviteLinkFields.expireDate InviteLinkFields.usageLimit].
  refine (conj _ (conj _ (conj _ (conj _ (conj _ _))))).
  - intros ->. reflexivity.
  - intros Hneg Hrange.
    destruct (Z.eqb_spec (expireValue (state d)) kMaxLimit) as [E|_];
      [rewrite E in Hneg; int_consts; lia|].
    destruct (Z.ltb_spec (expireValue (state d)) 0); [|lia].
    apply sub_exact, Hrange.
  - intros Hpos Hne.
    destruct (Z.eqb_spec (expireValue (state d)) kMaxLimit); [contradiction|].
    destruct (Z.ltb_spec (expireValue (state d)) 0); [lia|reflexivity].
  - intros ->. reflexivity.
  - intros Hne.
    destruct (Z.eqb_spec (usageValue (state d)) kMaxLimit);
      [contradiction|reflexivity].
  - intros data created chosen. reflexivity.
Qed.

Lemma save_encoding_witness :
  InviteLinkFields.expireDate
    (saveRecord 1000
       (step (EditInviteLinkBox plain_link 500)
             (ExpireChosen (-3600) 700))) = 1000 - -3600.
Proof.
  refine (proj1 (proj2 (save_encoding _ 1000)) _ _).
  - cbn. lia.
  - cbn. int_consts. lia.
Defined.

(** The time claim C5 gives for a selection that is not negative is not
    the one the date box gets when the selection is a time that has
    passed: the selection [500] at the time [1000] gives [1000 + 86400]. *)
Lemma date_box_seed_past_time :
  0 <= 500 /\ 500 <> kMaxLimit /\
  picker (step (EditInviteLinkBox expired_link 900) (ExpireChosen 0 1000)) <>
  DatePicker 500.
Proof.
  split; [lia|]. split; [int_consts; lia|]. intros H. discriminate H.
Qed.

(** C5, amended.  When the [0] button of the expiration column is
    chosen at the time [clock], with [0 <= clock <= kMaxLimit - kDay],
    the date box starts at [clock + kDay] if the selection is
    [kMaxLimit], at the selection if the selection is later than
    [clock], at [clock + |selection|] if the selection is negative, and
    at [clock + kDay] if the selection is a time from [0] to [clock]. *)
Theorem date_box_seed (d : Dialog) (clock : Z) :
  guard d = true ->
  0 <= clock <= kMaxLimit - kDay ->
  exists time,
    picker (step d (ExpireChosen 0 clock)) = DatePicker time /\
    (expireValue (state d) = kMaxLimit -> time = clock + kDay) /\
    (expireValue (state d) <> kMaxLimit -> clock < expireValue (state d) ->
     time = expireValue (state d)) /\
    (expireValue (state d) < 0 ->
     clock + Z.abs (expireValue (state d)) <= kMaxLimit ->
     time = clock + Z.abs (expireValue (state d))) /\
    (0 <= expireValue (state d) <= clock -> time = clock + kDay).
Proof.
  intros Hguard Hclock.
  exists (chooseTime clock (expireValue (state d))).
  split; [cbn [step]; rewrite Hguard; reflexivity|].
  assert (Hday : Int.add clock kDay = clock + kDay)
    by (apply add_exact; int_consts; lia).
  unfold chooseTime. refine (conj _ (conj _ (conj _ _))).
  - intros ->. exact Hday.
  - intros Hne Hlater. repeat decide_test; reflexivity.
  - intros Hneg Hfit.
    rewrite (sub_exact clock (expireValue (state d))) by (int_consts; lia).
    int_consts. repeat decide_test; lia.
  - intros Hpast. rewrite Hday. int_consts. repeat decide_test; lia.
Qed.

Lemma date_box_seed_witness :
  exists time,
    picker (step (EditInviteLinkBox expired_link 900) (ExpireChosen 0 1000)) =
    DatePicker time /\
    time = 1000 + kDay.
Proof.
  destruct (date_box_seed (EditInviteLinkBox expired_link 900) 1000)
    as (time & Hp & _ & _ & _ & Hpast).
  - reflexivity.
  - int_consts. lia.
  - exists time. split; [exact Hp|]. apply Hpast. cbn. lia.
Defined.

(** C6.  In the number box, saving a value that is not positive ([0],
    also for a text that is not a number, or [-5]) leaves the box open
    with its error shown and changes nothing in the dialog; a stored
    usage selection that changes has been set to a positive value; and a
    positive value, while the dialog exists, is stored, the columns are
    rebuilt for it and the box is closed. *)
Theorem number_box_validation (d : Dialog) (text : option Z) (error : bool)
        (value : Z) :
  picker d = NumberPicker text error ->
  (value <= 0 ->
   step d (NumberSubmitted value) = set_picker d (NumberPicker text true)) /\
  (usageValue (state (step d (NumberSubmitted value))) <> usageValue (state d)
   -> 0 < value /\ usageValue (state (step d (NumberSubmitted value))) = value)
  /\
  (0 < value -> guard d = true ->
   step d (NumberSubmitted value) =
   set_picker (regenerate (set_state d (set_usageValue (state d) value)))
              NoPicker).
Proof.
  intros Hpicker. cbn [step]. rewrite Hpicker. unfold usageSave.
  rewrite Hpicker. refine (conj _ (conj _ _)).
  - intros Hle. destruct (Z.leb_spec value 0); [reflexivity|lia].
  - destruct (Z.leb_spec value 0) as [Hle|Hgt].
    + intros Hchanged. exfalso. apply Hchanged. reflexivity.
    + destruct (guard d).
      * intros _. split; [exact Hgt|reflexivity].
      * intros Hchanged. exfalso. apply Hchanged. reflexivity.
  - intros Hgt Hguard. rewrite Hguard.
    destruct (Z.leb_spec value 0); [lia|reflexivity].
Qed.

Lemma number_box_validation_witness :
  step (step (EditInviteLinkBox plain_link 1000) (UsageChosen 0))
       (NumberSubmitted (-5)) =
  set_picker (step (EditInviteLinkBox plain_link 1000) (UsageChosen 0))
             (NumberPicker None true).
Proof.
  refine (proj1 (number_box_validation _ None false (-5) _) _).
  - reflexivity.
  - lia.
Defined.

(** Against C7: after the result [0] the date box is still shown, after
    a dismissal it is not. *)
Lemma date_box_null_is_not_cancel :
  step (step (EditInviteLinkBox plain_link 1000) (ExpireChosen 0 1000))
       (DateSubmitted 0) <>
  step (step (EditInviteLinkBox plain_link 1000) (ExpireChosen 0 1000))
       DateCancelled.
Proof. intros H. discriminate H. Qed.

(** C7, amended.  When the date box calls back with the result [0],
    nothing changes: the stored expiration selection and the columns
    are as before and the date box stays open.  A dismissal leaves the
    stored selection and the columns as they are too, and closes the
    box. *)
Theorem date_box_null_result (d : Dialog) (time : Z) :
  picker d = DatePicker time ->
  step d (DateSubmitted 0) = d /\
  picker (step d (DateSubmitted 0)) = DatePicker time /\
  step d DateCancelled = set_picker d NoPicker /\
  state (step d DateCancelled) = state (step d (DateSubmitted 0)).
Proof.
  intros Hpicker. cbn [step]. unfold dateCancel. rewrite Hpicker.
  refine (conj _ (conj _ (conj _ _))); try reflexivity. exact Hpicker.
Qed.

Lemma date_box_null_result_witness :
  picker (step (step (EditInviteLinkBox plain_link 1000)
                     (ExpireChosen 0 1000))
               (DateSubmitted 0)) = DatePicker (1000 + kDay).
Proof.
  refine (proj1 (proj2 (date_box_null_result _ (1000 + kDay) _))).
  reflexivity.
Defined.

(** C8.  Switching the request approval button on hides the usage
    section and changes neither the stored usage selection nor the
    usage column nor its group; switching it off again shows the
    section with the same selection, column and group. *)
Theorem approval_keeps_usage (d : Dialog) :
  guard d = true ->
  usagesShown (step d (ApprovalToggled true)) = false /\
  usageValue (state (step d (ApprovalToggled true))) = usageValue (state d) /\
  usageButtons (state (step d (ApprovalToggled true))) =
    usageButtons (state d) /\
  usageGroup (step d (ApprovalToggled true)) = usageGroup d /\
  usagesShown (run d [ApprovalToggled true; ApprovalToggled false]) = true /\
  usageValue (state (run d [ApprovalToggled true; ApprovalToggled false])) =
    usageValue (state d) /\
  usageButtons (state (run d [ApprovalToggled true; ApprovalToggled false])) =
    usageButtons (state d) /\
  usageGroup (run d [ApprovalToggled true; ApprovalToggled false]) =
    usageGroup d.
Proof.
  intros Hguard. cbn [run fold_left step]. rewrite Hguard.
  cbn [set_state guard]. rewrite Hguard.
  repeat split.
Qed.

Lemma approval_keeps_usage_witness :
  usageValue
    (state (run (run (EditInviteLinkBox plain_link 1000)
                     [UsageChosen 0; NumberSubmitted 7])
                [ApprovalToggled true; ApprovalToggled false])) = 7.
Proof.
  refine (proj1 (proj2 (proj2 (proj2 (proj2 (proj2
            (approval_keeps_usage
               (run (EditInviteLinkBox plain_link 1000)
                    [UsageChosen 0; NumberSubmitted 7]) _))))))).
  reflexivity.
Defined.

(** C9.  In every dialog that a sequence of events leads to, neither
    stored selection is [0].  Choosing the [0] button of a column leaves
    the stored selection and the columns as they are, puts the group
    back to the value it had and, while the dialog exists, opens the
    secondary box; dismissing that box then leaves the stored selection,
    the columns and the group as they were before the button was
    chosen. *)
Theorem trigger_is_never_stored (d : Dialog) (clock : Z) :
  reachable d ->
  (expireValue (state d) <> 0 /\ usageValue (state d) <> 0) /\
  (state (step d (ExpireChosen 0 clock)) = state d /\
   expireGroup (step d (ExpireChosen 0 clock)) = expireGroup d /\
   (guard d = true ->
    picker (step d (ExpireChosen 0 clock)) =
    DatePicker (chooseTime clock (expireValue (state d)))) /\
   state (run d [ExpireChosen 0 clock; DateCancelled]) = state d /\
   expireGroup (run d [ExpireChosen 0 clock; DateCancelled]) = expireGroup d /\
   (guard d = true ->
    picker (run d [ExpireChosen 0 clock; DateCancelled]) = NoPicker)) /\
  (state (step d (UsageChosen 0)) = state d /\
   usageGroup (step d (UsageChosen 0)) = usageGroup d /\
   (guard d = true ->
    picker (step d (UsageChosen 0)) =
    NumberPicker (chooseText (usageValue (state d))) false) /\
   state (run d [UsageChosen 0; NumberCancelled]) = state d /\
   usageGroup (run d [UsageChosen 0; NumberCancelled]) = usageGroup d /\
   (guard d = true ->
    picker (run d [UsageChosen 0; NumberCancelled]) = NoPicker)).
Proof.
  intros Hreach.
  destruct (reachable_consistent d Hreach) as (He & Hu & Hge & Hgu).
  refine (conj (conj He Hu) (conj _ _)); cbn [run fold_left].
  - cbn [step]. destruct (guard d) eqn:Hguard.
    + cbn. rewrite <- Hge. repeat split.
    + unfold dateCancel. destruct (picker d); repeat split; discriminate.
  - cbn [step]. destruct (guard d) eqn:Hguard.
    + cbn. rewrite <- Hgu. repeat split.
    + unfold numberCancel. destruct (picker d); repeat split; discriminate.
Qed.

Lemma trigger_is_never_stored_witness :
  expireValue
    (state (run (EditInviteLinkBox plain_link 1000)
                [ExpireChosen 0 1000; DateSubmitted 0; DateCancelled;
                 UsageChosen 0; NumberSubmitted 0])) <> 0.
Proof.
  refine (proj1 (proj1 (trigger_is_never_stored _ 1000 _))).
  exists plain_link, 1000,
    [ExpireChosen 0 1000; DateSubmitted 0; DateCancelled;
     UsageChosen 0; NumberSubmitted 0].
  reflexivity.
Defined.

(** C10.  A record with [expireDate = 0] and [usageLimit = 0] is taken
    into the dialog as [kMaxLimit], the greatest [int], for both
    selections, and the save button chosen right away hands the same
    record to [done], whatever the clock says. *)
Theorem unlimited_round_trip (data : InviteLinkFields.t) (now clock : Z) :
  InviteLinkFields.expireDate data = 0 ->
  InviteLinkFields.usageLimit data = 0 ->
  kMaxLimit = Int.max /\
  expireValue (state (EditInviteLinkBox data now)) = kMaxLimit /\
  usageValue (state (EditInviteLinkBox data now)) = kMaxLimit /\
  saveRecord clock (EditInviteLinkBox data now) = data /\
  doneCalls (step (EditInviteLinkBox data now) (SaveClicked clock)) = [data].
Proof.
  destruct data as [l t e u r g]. cbn [InviteLinkFields.expireDate
    InviteLinkFields.usageLimit]. intros -> ->.
  repeat split.
Qed.

Lemma unlimited_round_trip_witness :
  saveRecord 2000 (EditInviteLinkBox plain_link 1000) = plain_link.
Proof.
  refine (proj1 (proj2 (proj2 (proj2
            (unlimited_round_trip plain_link 1000 2000 _ _))))).
  - reflexivity.
  - reflexivity.
Defined.

(** * Further properties *)

(** ** The common form of the loops *)

Lemma expires_loop_common (now expireValue : Z) (tail : list Z) :
  expires_loop now expireValue tail =
  insert_loop (fun i => Int.sub now i >=? expireValue) expireValue tail.
Proof.
  induction tail as [|i rest IH]; [reflexivity|].
  cbn [expires_loop insert_loop]. rewrite IH. reflexivity.
Qed.

Lemma usages_loop_common (usageValue : Z) (tail : list Z) :
  usages_loop usageValue tail =
  insert_loop (fun i => i >? usageValue) usageValue tail.
Proof.
  induction tail as [|i rest IH]; [reflexivity|].
  cbn [usages_loop insert_loop]. rewrite IH. reflexivity.
Qed.

(** A loop either leaves the vector as it is or puts the value once in
    front of one of its elements. *)
Lemma insert_loop_once (fires : Z -> bool) (value : Z) (tail : list Z) :
  insert_loop fires value tail = tail \/
  exists l1 l2,
    tail = l1 ++ l2 /\ l2 <> [] /\
    insert_loop fires value tail = l1 ++ value :: l2.
Proof.
  induction tail as [|i rest IH]; [left; reflexivity|].
  cbn [insert_loop].
  assert (Hkeep :
    i :: insert_loop fires value rest = i :: rest \/
    exists l1 l2,
      i :: rest = l1 ++ l2 /\ l2 <> [] /\
      i :: insert_loop fires value rest = l1 ++ value :: l2).
  { destruct IH as [E|(l1 & l2 & E1 & Hl2 & E2)].
    - left. rewrite E. reflexivity.
    - right. exists (i :: l1), l2. cbn [app]. rewrite E2, <- E1. auto. }
  destruct (i =? value); [left; reflexivity|].
  destruct (i =? kMaxLimit); [exact Hkeep|].
  destruct ((i =? 0) || fires i); [|exact Hkeep].
  right. exists [], (i :: rest). cbn [app].
  repeat split; auto. discriminate.
Qed.

(** With [kMaxLimit] in front, the loop keeps it in front. *)
Lemma insert_loop_head (fires : Z -> bool) (value : Z) (rest : list Z) :
  insert_loop fires value (kMaxLimit :: rest) =
  kMaxLimit :: (if kMaxLimit =? value then rest
                else insert_loop fires value rest).
Proof.
  cbn [insert_loop]. destruct (kMaxLimit =? value); [reflexivity|].
  rewrite Z.eqb_refl. reflexivity.
Qed.

(** With [0] at the end only, the loop keeps it at the end. *)
Lemma insert_loop_before_zero (fires : Z -> bool) (value : Z) (l : list Z) :
  value <> 0 -> ~ In 0 l ->
  exists l',
    insert_loop fires value (l ++ [0]) = l' ++ [0] /\
    (l' = l \/ exists l1 l2, l = l1 ++ l2 /\ l' = l1 ++ value :: l2).
Proof.
  intros Hv. induction l as [|i rest IH]; intros Hzero.
  - exists [value]. cbn [insert_loop app].
    destruct (Z.eqb_spec 0 value) as [E|_]; [congruence|].
    split; [reflexivity|]. right. exists [], []. split; reflexivity.
  - assert (Hi : i <> 0) by (intros ->; apply Hzero; now left).
    assert (Hrest : ~ In 0 rest) by (intros H; apply Hzero; now right).
    destruct (IH Hrest) as (l' & E & Hl').
    assert (Hkeep :
      exists m, i :: insert_loop fires value (rest ++ [0]) = m ++ [0] /\
                (m = i :: rest \/
                 exists l1 l2, i :: rest = l1 ++ l2 /\
                               m = l1 ++ value :: l2)).
    { exists (i :: l'). rewrite E. split; [reflexivity|].
      destruct Hl' as [->|(l1 & l2 & -> & ->)]; [left; reflexivity|].
      right. exists (i :: l1), l2. split; reflexivity. }
    cbn [insert_loop app].
    destruct (i =? value);
      [exists (i :: rest); split; [reflexivity|left; reflexivity]|].
    destruct (i =? kMaxLimit); [exact Hkeep|].
    destruct ((i =? 0) || fires i); [|exact Hkeep].
    exists (value :: i :: rest). split; [reflexivity|].
    right. exists [], (i :: rest). split; reflexivity.
Qed.

(** The shape of a column built from [kMaxLimit], three presets and
    [0]. *)
Lemma insert_loop_shape (fires : Z -> bool) (value : Z) (l : list Z) :
  value <> 0 -> ~ In 0 l -> ~ In kMaxLimit l -> List.length l = 3%nat ->
  column_shape (kMaxLimit :: l ++ [0])
               (insert_loop fires value (kMaxLimit :: l ++ [0])).
Proof.
  intros Hv Hzero Hmax Hlen.
  assert (Hl : Forall (fun limit => limit <> kMaxLimit /\ limit <> 0) l).
  { apply Forall_forall. intros x Hx. split; intros ->; contradiction. }
  rewrite insert_loop_head. unfold column_shape.
  destruct (Z.eqb_spec kMaxLimit value) as [E|Hne].
  - exists l. repeat split; auto. rewrite Hlen. lia.
  - destruct (insert_loop_before_zero fires value l Hv Hzero)
      as (l' & E & [->|(l1 & l2 & -> & ->)]); rewrite E.
    + exists l. repeat split; auto. rewrite Hlen. lia.
    + exists (l1 ++ value :: l2). apply Forall_app in Hl as [H1 H2].
      repeat split.
      * apply Forall_app. split; [exact H1|]. constructor; auto.
      * rewrite length_app in *. cbn [List.length]. lia.
      * intros p [<-|Hp]; [now left|right].
        rewrite <- app_assoc in Hp. rewrite <- app_assoc.
        apply in_app_or in Hp as [Hp|Hp]; apply in_or_app;
          [left; exact Hp|right; right; exact Hp].
Qed.

Lemma regenerate_expires_shape (now expireValue : Z) :
  expireValue <> 0 ->
  column_shape expires (regenerate_expires now expireValue).
Proof.
  intros Hv. unfold regenerate_expires. rewrite expires_loop_common.
  apply (insert_loop_shape _ expireValue [- kHour; - kDay; - kDay * 7]);
    auto; cbn [In]; int_consts; lia.
Qed.

Lemma regenerate_usages_shape (usageValue : Z) :
  usageValue <> 0 ->
  column_shape usages (regenerate_usages usageValue).
Proof.
  intros Hv. unfold regenerate_usages. rewrite usages_loop_common.
  apply (insert_loop_shape _ usageValue [1; 10; 100]);
    auto; cbn [In]; int_consts; lia.
Qed.

(** X1.  Each of the first two loops of [regenerate], on any vector,
    either leaves the vector as it is or puts the value once in front of
    one of its elements: no element is dropped or moved, at most one
    entry is added, and nothing is put behind the last element. *)
Theorem loops_insert_at_most_once (now value : Z) (tail : list Z) :
  (expires_loop now value tail = tail \/
   exists l1 l2,
     tail = l1 ++ l2 /\ l2 <> [] /\
     expires_loop now value tail = l1 ++ value :: l2) /\
  (usages_loop value tail = tail \/
   exists l1 l2,
     tail = l1 ++ l2 /\ l2 <> [] /\
     usages_loop value tail = l1 ++ value :: l2).
Proof.
  rewrite expires_loop_common, usages_loop_common.
  split; apply insert_loop_once.
Qed.

(** ** The columns of a dialog *)

Lemma EditInviteLinkBox_columns (data : InviteLinkFields.t) (now : Z) :
  columns_regenerated (EditInviteLinkBox data now).
Proof.
  destruct (EditInviteLinkBox_consistent data now) as (He & Hu & _ & _).
  exists (expireValue (state (EditInviteLinkBox data now))),
         (usageValue (state (EditInviteLinkBox data now))).
  repeat split; assumption.
Qed.

Lemma regenerate_columns (d : Dialog) :
  expireValue (state d) <> 0 -> usageValue (state d) <> 0 ->
  columns_regenerated (regenerate d).
Proof.
  intros He Hu. exists (expireValue (state d)), (usageValue (state d)).
  repeat split; assumption.
Qed.

Lemma step_columns (d : Dialog) (e : Event) :
  consistent d -> columns_regenerated d -> columns_regenerated (step d e).
Proof.
  intros (He & Hu & _ & _) Hcol.
  destruct e as [value clock|value|result| |value| |on|text|clock| ];
    cbn [step].
  - destruct (guard d); [|exact Hcol]. unfold expireChanged.
    destruct (value =? 0); exact Hcol.
  - destruct (guard d); [|exact Hcol]. unfold usageChanged.
    destruct (value =? 0); exact Hcol.
  - unfold expireSave. destruct (picker d); try exact Hcol.
    destruct (Z.eqb_spec result 0) as [|Hr]; [exact Hcol|].
    destruct (guard d); [|exact Hcol].
    apply (regenerate_columns
             (set_state d (set_expireValue (state d) result))); assumption.
  - unfold dateCancel. destruct (picker d); exact Hcol.
  - unfold usageSave. destruct (picker d); try exact Hcol.
    destruct (Z.leb_spec value 0) as [|Hv]; [exact Hcol|].
    destruct (guard d); [|exact Hcol].
    apply (regenerate_columns
             (set_state d (set_usageValue (state d) value)));
      [assumption|cbn; lia].
  - unfold numberCancel. destruct (picker d); exact Hcol.
  - destruct (guard d); exact Hcol.
  - destruct (guard d); exact Hcol.
  - destruct (guard d); exact Hcol.
  - exact Hcol.
Qed.

Lemma reachable_columns (d : Dialog) :
  reachable d -> columns_regenerated d.
Proof.
  intros (data & now & events & ->).
  assert (H : consistent (EditInviteLinkBox data now) /\
              columns_regenerated (EditInviteLinkBox data now))
    by (split; [apply EditInviteLinkBox_consistent
               |apply EditInviteLinkBox_columns]).
  revert H. generalize (EditInviteLinkBox data now).
  induction events as [|e events IH]; intros d [Hc Hcol]; [exact Hcol|].
  cbn [run fold_left]. apply IH.
  split; [apply step_consistent, Hc|apply step_columns; assumption].
Qed.

Lemma regenerated_columns_shape (d : Dialog) :
  columns_regenerated d ->
  column_shape expires (expireButtons (state d)) /\
  column_shape usages (usageButtons (state d)).
Proof.
  intros (e & u & He & Hu & -> & ->).
  split; [apply regenerate_expires_shape|apply regenerate_usages_shape];
    assumption.
Qed.

(** X2.  In every dialog that a sequence of events leads to, each
    column begins with [kMaxLimit] and ends with [0], has neither of the
    two anywhere else, has at most six entries and has every preset. *)
Theorem columns_keep_their_shape (d : Dialog) :
  reachable d ->
  column_shape expires (expireButtons (state d)) /\
  column_shape usages (usageButtons (state d)).
Proof.
  intros Hreach.
  apply regenerated_columns_shape, reachable_columns, Hreach.
Qed.

Lemma columns_keep_their_shape_witness :
  column_shape usages
    (usageButtons
       (state (run (EditInviteLinkBox plain_link 1000)
                   [UsageChosen 0; NumberSubmitted 7; UsageChosen 10]))).
Proof.
  refine (proj2 (columns_keep_their_shape _ _)).
  exists plain_link, 1000, [UsageChosen 0; NumberSubmitted 7; UsageChosen 10].
  reflexivity.
Defined.

Lemma column_texts (presets column : list Z) (first last : ButtonText)
      (text : Z -> ButtonText) (between : Z -> ButtonText) :
  text kMaxLimit = first -> text 0 = last ->
  (forall limit, limit <> kMaxLimit -> limit <> 0 ->
                 text limit = between limit) ->
  column_shape presets column ->
  exists middle,
    (List.length middle <= 4)%nat /\
    map text column = first :: map between middle ++ [last].
Proof.
  intros Hfirst Hlast Hbetween (middle & -> & Hall & Hlen & _).
  exists middle. split; [exact Hlen|].
  cbn [map]. rewrite map_app. cbn [map]. rewrite Hfirst, Hlast.
  f_equal. f_equal. apply map_ext_in. intros limit Hin.
  rewrite Forall_forall in Hall. destruct (Hall limit Hin).
  apply Hbetween; assumption.
Qed.

(** X3.  In every dialog that a sequence of events leads to, the first
    button of the expiration column reads never, the last one reads
    custom, and each of the at most four buttons between them shows what
    [FormatExpireDate] gives for its limit; the first button of the
    usage column reads any, the last one custom, and each of the at most
    four between them shows its number. *)
Theorem column_button_texts (d : Dialog) :
  reachable d ->
  (exists middle,
     (List.length middle <= 4)%nat /\
     map expireButtonText (expireButtons (state d)) =
     NeverText
       :: map (fun limit => ExpireDateText (FormatExpireDate limit)) middle
       ++ [CustomExpireText]) /\
  (exists middle,
     (List.length middle <= 4)%nat /\
     map usageButtonText (usageButtons (state d)) =
     AnyText :: map NumberText middle ++ [CustomUsageText]).
Proof.
  intros Hreach.
  destruct (regenerated_columns_shape d (reachable_columns d Hreach))
    as [He Hu].
  split.
  - apply (column_texts expires); try reflexivity; [|exact He].
    intros limit Hmax Hzero. unfold expireButtonText.
    destruct (Z.eqb_spec limit kMaxLimit); [contradiction|].
    destruct (Z.eqb_spec limit 0); [contradiction|reflexivity].
  - apply (column_texts usages); try reflexivity; [|exact Hu].
    intros limit Hmax Hzero. unfold usageButtonText.
    destruct (Z.eqb_spec limit kMaxLimit); [contradiction|].
    destruct (Z.eqb_spec limit 0); [contradiction|reflexivity].
Qed.

Lemma column_button_texts_witness :
  exists middle,
    (List.length middle <= 4)%nat /\
    map usageButtonText
        (usageButtons
           (state (run (EditInviteLinkBox plain_link 1000)
                       [UsageChosen 0; NumberSubmitted 7]))) =
    AnyText :: map NumberText middle ++ [CustomUsageText].
Proof.
  refine (proj2 (column_button_texts _ _)).
  exists plain_link, 1000, [UsageChosen 0; NumberSubmitted 7].
  reflexivity.
Defined.

(** ** The order of a column *)

(** Names the entries between the first and the last of a column that
    has been computed. *)
Ltac name_middle :=
  match goal with
  | |- exists middle, ?column = _ /\ _ =>
      exists (removelast (tl column)); cbn [tl removelast]
  end.

(** X4.  Whatever the usage selection is, the entries of the usage
    column between [kMaxLimit] and the final [0] are in strictly
    ascending order. *)
Theorem usages_ascending (usageValue : Z) :
  exists middle,
    regenerate_usages usageValue = kMaxLimit :: middle ++ [0] /\
    StronglySorted Z.lt middle.
Proof.
  unfold regenerate_usages, usages. cbn [usages_loop]. int_consts.
  repeat decide_test; name_middle;
    (split; [reflexivity|repeat (constructor; try lia)]).
Qed.

(** X5.  For a dialog created at a time [now] with
    [0 <= now <= kMaxLimit - 7 * kDay] and a selection that is an
    absolute time, the entries of the expiration column between
    [kMaxLimit] and the final [0] are in ascending order of the times
    they stand for, a negative entry standing for [now] plus its
    duration. *)
Theorem expires_ascending_in_time (now expireValue : Z) :
  0 <= now <= kMaxLimit - 7 * kDay ->
  0 < expireValue <= kMaxLimit ->
  exists middle,
    regenerate_expires now expireValue = kMaxLimit :: middle ++ [0] /\
    StronglySorted Z.le (map (absoluteTime now) middle).
Proof.
  intros Hnow Hvalue.
  unfold regenerate_expires, expires. cbn [expires_loop].
  rewrite (sub_exact now (- kHour)) by (int_consts; lia).
  rewrite (sub_exact now (- kDay)) by (int_consts; lia).
  rewrite (sub_exact now (- kDay * 7)) by (int_consts; lia).
  unfold absoluteTime. int_consts.
  repeat decide_test; name_middle;
    (split; [reflexivity|]); cbn [map]; repeat decide_test;
    repeat (constructor; try lia).
Qed.

Lemma expires_ascending_in_time_witness :
  exists middle,
    regenerate_expires 1000 90000 = kMaxLimit :: middle ++ [0] /\
    StronglySorted Z.le (map (absoluteTime 1000) middle).
Proof.
  apply (expires_ascending_in_time 1000 90000); int_consts; lia.
Defined.

(** ** [FormatExpireDate] *)

Lemma int_neg_exact (a : Z) : Int.min < a <= Int.max -> int_neg a = - a.
Proof.
  intros Ha. apply wrap_in_range. unfold Int.in_range, Int.min, Int.max in *.
  lia.
Qed.

(** The quotient of the source for a duration and a positive unit. *)
Lemma whole_units (duration unit : Z) :
  0 <= duration -> 0 < unit ->
  Z.quot duration unit * unit <= duration <
  (Z.quot duration unit + 1) * unit.
Proof.
  intros Hd Hu. rewrite Z.quot_div_nonneg by lia.
  pose proof (Z.div_mod duration unit ltac:(lia)) as E.
  pose proof (Z.mod_pos_bound duration unit Hu) as B.
  nia.
Qed.

(** X6.  [FormatExpireDate] shows a positive date as a date and time.
    It shows any other date [d] (above the least [int]) as a duration of
    [-d] seconds in whole units, rounded down: in hours below one day,
    with a count from [0] to [23]; in days from one day on and below
    seven days, with a count from [1] to [6]; in weeks from seven days
    on, with a count of at least [1]. *)
Theorem FormatExpireDate_units (date : Z) :
  Int.min < date <= Int.max ->
  (0 < date /\ FormatExpireDate date = DateTimeText date) \/
  (exists count,
     FormatExpireDate date = HoursText count /\
     0 <= - date < kDay /\ 0 <= count < 24 /\
     count * kHour <= - date < (count + 1) * kHour) \/
  (exists count,
     FormatExpireDate date = DaysText count /\
     kDay <= - date < 7 * kDay /\ 1 <= count < 7 /\
     count * kDay <= - date < (count + 1) * kDay) \/
  (exists count,
     FormatExpireDate date = WeeksText count /\
     7 * kDay <= - date /\ 1 <= count /\
     count * (7 * kDay) <= - date < (count + 1) * (7 * kDay)).
Proof.
  intros Hdate. unfold FormatExpireDate.
  rewrite Z.gtb_ltb. destruct (Z.ltb_spec 0 date) as [Hpos|Hneg];
    [left; split; [exact Hpos|reflexivity]|right].
  rewrite (int_neg_exact date Hdate).
  destruct (Z.ltb_spec (- date) kDay) as [Hday|Hday].
  - left. exists (Z.quot (- date) kHour).
    pose proof (whole_units (- date) kHour) as U.
    int_consts. split; [reflexivity|]. lia.
  - right. destruct (Z.ltb_spec (- date) (7 * kDay)) as [Hweek|Hweek].
    + left. exists (Z.quot (- date) kDay).
      pose proof (whole_units (- date) kDay) as U.
      int_consts. split; [reflexivity|]. lia.
    + right. exists (Z.quot (- date) (7 * kDay)).
      pose proof (whole_units (- date) (7 * kDay)) as U.
      int_consts. split; [reflexivity|]. lia.
Qed.

Lemma FormatExpireDate_units_witness :
  (0 < -7200 /\ FormatExpireDate (-7200) = DateTimeText (-7200)) \/
  (exists count,
     FormatExpireDate (-7200) = HoursText count /\
     0 <= - -7200 < kDay /\ 0 <= count < 24 /\
     count * kHour <= - -7200 < (count + 1) * kHour) \/
  (exists count,
     FormatExpireDate (-7200) = DaysText count /\
     kDay <= - -7200 < 7 * kDay /\ 1 <= count < 7 /\
     count * kDay <= - -7200 < (count + 1) * kDay) \/
  (exists count,
     FormatExpireDate (-7200) = WeeksText count /\
     7 * kDay <= - -7200 /\ 1 <= count /\
     count * (7 * kDay) <= - -7200 < (count + 1) * (7 * kDay)).
Proof.
  apply (FormatExpireDate_units (-7200)). unfold Int.min, Int.max. lia.
Defined.

(** ** The seed of the date box *)

(** X7.  When the [0] button of the expiration column is chosen at a
    time [clock] with [0 <= clock <= kMaxLimit - kDay], the date box
    starts at a time later than [clock] that is an [int], whatever the
    stored selection is, as long as the selection is an [int] and, when
    it is negative, its duration added to [clock] is one. *)
Theorem date_box_starts_later (d : Dialog) (clock : Z) :
  guard d = true ->
  0 <= clock <= kMaxLimit - kDay ->
  expireValue (state d) <= kMaxLimit ->
  (expireValue (state d) < 0 -> clock - expireValue (state d) <= kMaxLimit) ->
  exists time,
    picker (step d (ExpireChosen 0 clock)) = DatePicker time /\
    clock < time <= kMaxLimit.
Proof.
  intros Hguard Hclock Hint Hfit.
  exists (chooseTime clock (expireValue (state d))).
  split; [cbn [step]; rewrite Hguard; reflexivity|].
  unfold chooseTime.
  rewrite (add_exact clock kDay) by (int_consts; lia).
  destruct (Z.eqb_spec (expireValue (state d)) kMaxLimit) as [E|Hne];
    [int_consts; lia|].
  rewrite Z.gtb_ltb.
  destruct (Z.ltb_spec clock (expireValue (state d))) as [Hlater|Hpast];
    [lia|].
  destruct (Z.ltb_spec (expireValue (state d)) 0) as [Hneg|Hpos];
    [|int_consts; lia].
  specialize (Hfit Hneg).
  rewrite sub_exact by (int_consts; lia). lia.
Qed.

Lemma date_box_starts_later_witness :
  exists time,
    picker (step (EditInviteLinkBox expired_link 900) (ExpireChosen 0 1000)) =
    DatePicker time /\
    1000 < time <= kMaxLimit.
Proof.
  apply (date_box_starts_later (EditInviteLinkBox expired_link 900) 1000).
  - reflexivity.
  - int_consts. lia.
  - cbn. int_consts. lia.
  - cbn. lia.
Defined.

(** ** Saving and opening again *)




(** ** After the dialog is gone *)

Lemma step_when_gone (d : Dialog) (e : Event) :
  guard d = false ->
  state (step d e) = state d /\
  expireGroup (step d e) = expireGroup d /\
  usageGroup (step d e) = usageGroup d /\
  labelField (step d e) = labelField d /\
  doneCalls (step d e) = doneCalls d /\
  guard (step d e) = false.
Proof.
  intros Hgone.
  destruct e as [value clock|value|result| |value| |on|text|clock| ];
    cbn [step]; rewrite ?Hgone; auto 7.
  - unfold expireSave. destruct (picker d); auto 7.
    destruct (result =? 0); auto 7. rewrite Hgone. auto 7.
  - unfold dateCancel. destruct (picker d); auto 7.
  - unfold usageSave. destruct (picker d); auto 7.
    destruct (value <=? 0); [auto 7|]. rewrite Hgone. auto 7.
  - unfold numberCancel. destruct (picker d); auto 7.
Qed.

(** X9.  Once the dialog is gone ([guard] is false), nothing that
    happens later, in particular no result that a secondary box still
    open calls back with, changes the stored selections, the columns,
    the groups or the label, and no record is handed to [done]. *)
Theorem gone_dialog_is_left_alone (d : Dialog) (events : list Event) :
  guard d = false ->
  state (run d events) = state d /\
  expireGroup (run d events) = expireGroup d /\
  usageGroup (run d events) = usageGroup d /\
  labelField (run d events) = labelField d /\
  doneCalls (run d events) = doneCalls d /\
  guard (run d events) = false.
Proof.
  revert d. induction events as [|e events IH]; intros d Hgone; [auto 7|].
  cbn [run fold_left].
  destruct (step_when_gone d e Hgone) as (Hs & Heg & Hug & Hl & Hd & Hg).
  destruct (IH (step d e) Hg) as (Hs' & Heg' & Hug' & Hl' & Hd' & Hg').
  unfold run in *.
  rewrite Hs', Heg', Hug', Hl', Hd', Hs, Heg, Hug, Hl, Hd. auto 7.
Qed.

Lemma gone_dialog_is_left_alone_witness :
  state (run (run (EditInviteLinkBox plain_link 1000)
                  [UsageChosen 0; CancelClicked])
             [NumberSubmitted 5; SaveClicked 2000]) =
  state (run (EditInviteLinkBox plain_link 1000)
             [UsageChosen 0; CancelClicked]).
Proof.
  refine (proj1 (gone_dialog_is_left_alone _ _ _)).
  reflexivity.
Defined.

(** ** The selection and its button *)

Lemma insert_loop_has_value (fires : Z -> bool) (value : Z) (tail : list Z) :
  In 0 tail -> In value (insert_loop fires value tail).
Proof.
  induction tail as [|i rest IH]; intros Hzero; [destruct Hzero|].
  cbn [insert_loop].
  destruct (Z.eqb_spec i value) as [->|Hne]; [now left|].
  assert (Hkeep : i <> 0 -> In value (i :: insert_loop fires value rest)).
  { intros Hi. right. apply IH. destruct Hzero; [contradiction|assumption]. }
  destruct (Z.eqb_spec i kMaxLimit) as [E|_];
    [apply Hkeep; rewrite E; discriminate|].
  destruct (Z.eqb_spec i 0) as [_|Hi]; cbn [orb]; [now left|].
  destruct (fires i); [now left|apply Hkeep, Hi].
Qed.

Lemma regenerate_has_selections (d : Dialog) :
  In (expireValue (state (regenerate d))) (expireButtons (state (regenerate d)))
  /\
  In (usageValue (state (regenerate d))) (usageButtons (state (regenerate d))).
Proof.
  cbn [regenerate state set_state set_buttons expireValue usageValue
       expireButtons usageButtons].
  unfold regenerate_expires, regenerate_usages.
  rewrite expires_loop_common, usages_loop_common.
  split; apply insert_loop_has_value; cbn [In expires usages]; tauto.
Qed.

Lemma step_keeps_selection_offered (d : Dialog) (e : Event) :
  offered d e ->
  In (expireValue (state d)) (expireButtons (state d)) /\
  In (usageValue (state d)) (usageButtons (state d)) ->
  In (expireValue (state (step d e))) (expireButtons (state (step d e))) /\
  In (usageValue (state (step d e))) (usageButtons (state (step d e))).
Proof.
  intros Hoff [He Hu].
  destruct e as [value clock|value|result| |value| |on|text|clock| ];
    cbn [step offered] in *.
  - destruct (guard d); [|auto]. unfold expireChanged.
    destruct (value =? 0); cbn; auto.
  - destruct (guard d); [|auto]. unfold usageChanged.
    destruct (value =? 0); cbn; auto.
  - unfold expireSave. destruct (picker d); auto.
    destruct (result =? 0); auto.
    destruct (guard d); [|auto].
    apply (regenerate_has_selections
             (set_state d (set_expireValue (state d) result))).
  - unfold dateCancel. destruct (picker d); auto.
  - unfold usageSave. destruct (picker d); auto.
    destruct (value <=? 0); auto.
    destruct (guard d); [|auto].
    apply (regenerate_has_selections
             (set_state d (set_usageValue (state d) value))).
  - unfold numberCancel. destruct (picker d); auto.
  - destruct (guard d); auto.
  - destruct (guard d); auto.
  - destruct (guard d); auto.
  - auto.
Qed.

(** X10.  As long as every radio button that is chosen is a button of
    its column, the stored selection of each column is the limit of one
    of the buttons of that column: the selected button always exists. *)
Theorem selection_has_a_button (data : InviteLinkFields.t) (now : Z)
        (events : list Event) :
  offered_run (EditInviteLinkBox data now) events ->
  In (expireValue (state (run (EditInviteLinkBox data now) events)))
     (expireButtons (state (run (EditInviteLinkBox data now) events))) /\
  In (usageValue (state (run (EditInviteLinkBox data now) events)))
     (usageButtons (state (run (EditInviteLinkBox data now) events))).
Proof.
  assert (Hstart := regenerate_has_selections).
  unfold EditInviteLinkBox.
  match goal with
  | |- offered_run (regenerate ?d0) _ -> _ =>
      specialize (Hstart d0); revert Hstart; generalize (regenerate d0)
  end.
  induction events as [|e events IH]; intros d Hd Hrun; [exact Hd|].
  destruct Hrun as [Hoff Hrest]. cbn [run fold_left].
  apply IH; [apply step_keeps_selection_offered; assumption|exact Hrest].
Qed.

Lemma selection_has_a_button_witness :
  In (usageValue
        (state (run (EditInviteLinkBox plain_link 1000)
                    [UsageChosen 0; NumberSubmitted 7; UsageChosen 10])))
     (usageButtons
        (state (run (EditInviteLinkBox plain_link 1000)
                    [UsageChosen 0; NumberSubmitted 7; UsageChosen 10]))).
Proof.
  refine (proj2 (selection_has_a_button plain_link 1000
                   [UsageChosen 0; NumberSubmitted 7; UsageChosen 10] _)).
  cbn. tauto.
Defined.

(** ** Repetitions in a column *)

Lemma regenerate_usages_NoDup (usageValue : Z) :
  usageValue <> 0 -> NoDup (regenerate_usages usageValue).
Proof.
  intros Hnz. destruct (in_dec Z.eq_dec usageValue usages) as [Hin|Hnot].
  - assert (E : regenerate_usages usageValue = usages).
    { unfold usages in Hin. cbn [In] in Hin.
      destruct Hin as [<-|[<-|[<-|[<-|[H|[]]]]]];
        [reflexivity .. | congruence]. }
    rewrite E. apply usages_NoDup.
  - assert (H0 : In 0 usages) by (unfold usages; cbn [In]; tauto).
    destruct (usages_loop_inserts usageValue usages Hnot H0)
      as (l1 & p & l2 & E1 & E2 & _ & _).
    unfold regenerate_usages. rewrite E2.
    apply (NoDup_Add (Add_app usageValue l1 (p :: l2))).
    rewrite <- E1. split; [apply usages_NoDup|exact Hnot].
Qed.

(** X11.  In every dialog that a sequence of events leads to, the usage
    column shows no limit twice. *)
Theorem usage_column_has_no_repetition (d : Dialog) :
  reachable d -> NoDup (usageButtons (state d)).
Proof.
  intros Hreach.
  destruct (reachable_columns d Hreach) as (e & u & _ & Hu & _ & ->).
  apply regenerate_usages_NoDup, Hu.
Qed.

Lemma usage_column_has_no_repetition_witness :
  NoDup (usageButtons
           (state (run (EditInviteLinkBox plain_link 1000)
                       [UsageChosen 0; NumberSubmitted 10;
                        UsageChosen 0; NumberSubmitted 7]))).
Proof.
  apply usage_column_has_no_repetition.
  exists plain_link, 1000,
    [UsageChosen 0; NumberSubmitted 10; UsageChosen 0; NumberSubmitted 7].
  reflexivity.
Defined.

(** X12.  For a selection that is not [0], the usage vector that
    [regenerate] builds has the selection exactly once and every preset
    exactly once, and is as long as the presets when the selection is a
    preset and one longer otherwise.  The expiration vector has the same
    property, at any time [now], when the selection is moreover neither
    the one day nor the one week preset. *)
Theorem vectors_have_selection_once (now value : Z) :
  value <> 0 ->
  containment usages value (regenerate_usages value) /\
  (value <> - kDay -> value <> - kDay * 7 ->
   containment expires value (regenerate_expires now value)).
Proof.
  intros Hnz. split; [apply usages_containment, Hnz|].
  intros Hday Hweek. apply expires_containment; assumption.
Qed.

Lemma vectors_have_selection_once_witness :
  containment expires 90000 (regenerate_expires 1000 90000).
Proof.
  refine (proj2 (vectors_have_selection_once 1000 90000 _) _ _);
    int_consts; lia.
Defined.
